(** * Ledger hardware context (src/contexts/Hardware/Ledger.tsx)

    A shallow embedding of [LedgerHardwareProvider]: the React state slots
    are a record, the asynchronous operations run in a state-and-exception
    monad over that record and a log of every effect they perform (calls to
    the transport provider and to the protocol client, and calls of the
    [useState] setters). *)

From Stdlib Require Import String Ascii List ZArith Bool Lia DecimalString DecimalZ
  Eqdep_dec.
Import ListNotations.
Open Scope string_scope.
Open Scope list_scope.

(** ** JavaScript values *)

Module Js.

Local Open Scope string_scope.

Definition MAX_SAFE_INTEGER : Z := 9007199254740991.

(** [Number.isSafeInteger] on an integer. *)
Definition isSafeInteger (z : Z) : bool := (Z.abs z <=? MAX_SAFE_INTEGER)%Z.

(** The numbers of this development: the integers a JavaScript number holds
    exactly, from -(2^53 - 1) to 2^53 - 1. *)
Record SafeInt : Type := mkSafeInt {
  intValue : Z;
  intSafe : isSafeInteger intValue = true
}.

(** A numeric literal. *)
Abbreviation safe z := (mkSafeInt z%Z eq_refl).

(** [AnyJson] values.  A number is a safe integer (account indexes are):
    fractions, infinities and integers beyond 2^53 - 1 are not values of
    this type.  An object is a plain object, given by the list of its own
    properties in insertion order. *)
#[warnings="-register-all"]
Inductive Json : Type :=
| JUndefined
| JNull
| JBool (b : bool)
| JNum (n : SafeInt)
| JStr (s : string)
| JArr (l : list Json)
| JObj (fields : list (string * Json)).

(** What a JavaScript expression evaluates to: a value, or a thrown one. *)
Inductive Outcome (A : Type) : Type :=
| Returned (a : A)
| Threw (err : Json).
Arguments Returned {A} a.
Arguments Threw {A} err.

(** The error raised by a property read on [undefined] or [null]. *)
Definition TypeError (message : string) : Json :=
  JObj [("name", JStr "TypeError"); ("message", JStr message)].

(** The digits of a safe integer, with a minus sign below zero: what
    [Number.prototype.toString] gives for every number below 10^21. *)
Definition decimal (n : SafeInt) : string :=
  NilEmpty.string_of_int (Z.to_int (intValue n)).

Fixpoint lookup (k : string) (fields : list (string * Json)) : option Json :=
  match fields with
  | [] => None
  | (k', v) :: r => if String.eqb k k' then Some v else lookup k r
  end.

Definition cannotConvert : Json :=
  TypeError "Cannot convert object to primitive value".

(** String conversion, as a template literal performs it.  A plain object
    converts through [Object.prototype.toString]; one with an own [toString]
    property, which no JSON value makes callable, is left with [valueOf],
    which returns the object, and the conversion raises.  An array joins the
    conversions of its elements, [null] and [undefined] giving nothing. *)
Fixpoint toString (j : Json) : Outcome string :=
  match j with
  | JUndefined => Returned "undefined"
  | JNull => Returned "null"
  | JBool true => Returned "true"
  | JBool false => Returned "false"
  | JNum n => Returned (decimal n)
  | JStr s => Returned s
  | JArr l =>
      (fix join (l : list Json) : Outcome string :=
         match l with
         | [] => Returned ""
         | x :: r =>
             match match x with
                   | JUndefined | JNull => Returned ""
                   | _ => toString x
                   end with
             | Threw err => Threw err
             | Returned s =>
                 match r with
                 | [] => Returned s
                 | _ :: _ =>
                     match join r with
                     | Threw err => Threw err
                     | Returned s' => Returned (s ++ "," ++ s')
                     end
                 end
             end
         end) l
  | JObj fields =>
      match lookup "toString" fields with
      | Some _ => Threw cannotConvert
      | None => Returned "[object Object]"
      end
  end.

(** [o.k] for a key [k] that no prototype defines: a [TypeError] on
    [undefined] and [null], the own property of an object, [undefined]
    otherwise. *)
Definition getProp (o : Json) (k : string) : Outcome Json :=
  match o with
  | JUndefined =>
      Threw (TypeError ("Cannot read properties of undefined (reading '" ++ k ++ "')"))
  | JNull =>
      Threw (TypeError ("Cannot read properties of null (reading '" ++ k ++ "')"))
  | JObj fields =>
      match lookup k fields with
      | Some v => Returned v
      | None => Returned JUndefined
      end
  | _ => Returned JUndefined
  end.

(** [o?.k] *)
Definition optGetProp (o : Json) (k : string) : Json :=
  match getProp o k with
  | Returned v => v
  | Threw _ => JUndefined
  end.

(** [a ?? b] *)
Definition nullish (a b : Json) : Json :=
  match a with
  | JUndefined | JNull => b
  | _ => a
  end.

(** [j === 's'] for a string literal. *)
Definition strictEqStr (j : Json) (s : string) : bool :=
  match j with
  | JStr s' => String.eqb s' s
  | _ => false
  end.

(** The truth value [if (j)] tests. *)
Definition truthy (j : Json) : bool :=
  match j with
  | JUndefined | JNull => false
  | JBool b => b
  | JNum n => negb (Z.eqb (intValue n) 0)
  | JStr s => negb (String.eqb s "")
  | JArr _ | JObj _ => true
  end.

(** Property assignment in an object literal: an existing key keeps its
    place and takes the new value, a new key goes last. *)
Fixpoint assign (fields : list (string * Json)) (k : string) (v : Json)
  : list (string * Json) :=
  match fields with
  | [] => [(k, v)]
  | (k', v') :: r =>
      if String.eqb k k' then (k', v) :: r else (k', v') :: assign r k v
  end.

(** [{ ...fields, ...src }] *)
Definition spread (fields : list (string * Json)) (src : Json)
  : list (string * Json) :=
  match src with
  | JObj src_fields =>
      fold_left (fun acc kv => assign acc (fst kv) (snd kv)) src_fields fields
  | _ => fields
  end.

(** [a.includes(s)] on an array of strings. *)
Definition includes (a : list string) (s : string) : bool :=
  existsb (String.eqb s) a.

End Js.
Import Js.

(** ** The state slots of the provider component *)

(** [LedgerResponse], as far as this file builds it. *)
Record LedgerResponse : Type := mkLedgerResponse {
  ack : string;
  statusCode : string
}.

(** [LedgerTask] and [PairingStatus] are string literal types. *)
Definition LedgerTask : Type := string.
Definition PairingStatus : Type := string.

Definition TOTAL_ALLOWED_STATUS_CODES : nat := 50.

(** One field per [useState] value and per [useRef] mirror. *)
Record LedgerState : Type := mkLedgerState {
  isPaired : PairingStatus;
  isPairedRef : PairingStatus;
  isImporting : bool;
  isImportingRef : bool;
  statusCodes : list LedgerResponse;
  statusCodesRef : list LedgerResponse;
  transportError : option LedgerResponse;
  ledgerDeviceInfo : Json;
  transportResponse : Json
}.

(** The state the hooks start from. *)
Definition initialState : LedgerState :=
  {| isPaired := "unknown"; isPairedRef := "unknown";
     isImporting := false; isImportingRef := false;
     statusCodes := []; statusCodesRef := [];
     transportError := None;
     ledgerDeviceInfo := JNull;
     transportResponse := JNull |}.

Definition setIsPairedState (p : PairingStatus) (s : LedgerState) : LedgerState :=
  {| isPaired := p; isPairedRef := isPairedRef s;
     isImporting := isImporting s; isImportingRef := isImportingRef s;
     statusCodes := statusCodes s; statusCodesRef := statusCodesRef s;
     transportError := transportError s;
     ledgerDeviceInfo := ledgerDeviceInfo s;
     transportResponse := transportResponse s |}.

Definition setIsPairedRef (p : PairingStatus) (s : LedgerState) : LedgerState :=
  {| isPaired := isPaired s; isPairedRef := p;
     isImporting := isImporting s; isImportingRef := isImportingRef s;
     statusCodes := statusCodes s; statusCodesRef := statusCodesRef s;
     transportError := transportError s;
     ledgerDeviceInfo := ledgerDeviceInfo s;
     transportResponse := transportResponse s |}.

Definition setIsImportingState (v : bool) (s : LedgerState) : LedgerState :=
  {| isPaired := isPaired s; isPairedRef := isPairedRef s;
     isImporting := v; isImportingRef := isImportingRef s;
     statusCodes := statusCodes s; statusCodesRef := statusCodesRef s;
     transportError := transportError s;
     ledgerDeviceInfo := ledgerDeviceInfo s;
     transportResponse := transportResponse s |}.

Definition setIsImportingRef (v : bool) (s : LedgerState) : LedgerState :=
  {| isPaired := isPaired s; isPairedRef := isPairedRef s;
     isImporting := isImporting s; isImportingRef := v;
     statusCodes := statusCodes s; statusCodesRef := statusCodesRef s;
     transportError := transportError s;
     ledgerDeviceInfo := ledgerDeviceInfo s;
     transportResponse := transportResponse s |}.

Definition setStatusCodes (l : list LedgerResponse) (s : LedgerState) : LedgerState :=
  {| isPaired := isPaired s; isPairedRef := isPairedRef s;
     isImporting := isImporting s; isImportingRef := isImportingRef s;
     statusCodes := l; statusCodesRef := statusCodesRef s;
     transportError := transportError s;
     ledgerDeviceInfo := ledgerDeviceInfo s;
     transportResponse := transportResponse s |}.

Definition setStatusCodesRef (l : list LedgerResponse) (s : LedgerState) : LedgerState :=
  {| isPaired := isPaired s; isPairedRef := isPairedRef s;
     isImporting := isImporting s; isImportingRef := isImportingRef s;
     statusCodes := statusCodes s; statusCodesRef := l;
     transportError := transportError s;
     ledgerDeviceInfo := ledgerDeviceInfo s;
     transportResponse := transportResponse s |}.

Definition setTransportError (e : option LedgerResponse) (s : LedgerState) : LedgerState :=
  {| isPaired := isPaired s; isPairedRef := isPairedRef s;
     isImporting := isImporting s; isImportingRef := isImportingRef s;
     statusCodes := statusCodes s; statusCodesRef := statusCodesRef s;
     transportError := e;
     ledgerDeviceInfo := ledgerDeviceInfo s;
     transportResponse := transportResponse s |}.

Definition setLedgerDeviceInfo (j : Json) (s : LedgerState) : LedgerState :=
  {| isPaired := isPaired s; isPairedRef := isPairedRef s;
     isImporting := isImporting s; isImportingRef := isImportingRef s;
     statusCodes := statusCodes s; statusCodesRef := statusCodesRef s;
     transportError := transportError s;
     ledgerDeviceInfo := j;
     transportResponse := transportResponse s |}.

Definition setTransportResponse (j : Json) (s : LedgerState) : LedgerState :=
  {| isPaired := isPaired s; isPairedRef := isPairedRef s;
     isImporting := isImporting s; isImportingRef := isImportingRef s;
     statusCodes := statusCodes s; statusCodesRef := statusCodesRef s;
     transportError := transportError s;
     ledgerDeviceInfo := ledgerDeviceInfo s;
     transportResponse := j |}.

(** Modelled from the spec: [setStateWithRef] is imported from [Utils],
    which is not among the sources.  The rendering-state copy and the
    synchronously-current mirror are kept in lockstep on every write: the
    value goes to the state setter and to the reference. *)
Definition setStateWithRef {A : Type} (value : A)
    (setState : A -> LedgerState -> LedgerState)
    (setRef : A -> LedgerState -> LedgerState)
    (s : LedgerState) : LedgerState :=
  setRef value (setState value s).

(** ** The synchronous operations *)

(** [statusCodes] is the variable the function closes over: the array the
    render that created the function was given, which is the current state
    slot only when that render is the latest one.  The new entry goes in
    front of it, [pop()] removes the last entry when the new array is longer
    than allowed, and the result is written to the state [s] of the time of
    the call. *)
Definition handleNewStatusCode (statusCodes : list LedgerResponse)
    (ack statusCode : string) (s : LedgerState) : LedgerState :=
  let newStatusCodes := mkLedgerResponse ack statusCode :: statusCodes in
  let newStatusCodes :=
    if Nat.ltb TOTAL_ALLOWED_STATUS_CODES (length newStatusCodes)
    then removelast newStatusCodes
    else newStatusCodes in
  setStateWithRef newStatusCodes setStatusCodes setStatusCodesRef s.

Definition setIsPaired (p : PairingStatus) (s : LedgerState) : LedgerState :=
  setStateWithRef p setIsPairedState setIsPairedRef s.

Definition setIsImporting (val : bool) (s : LedgerState) : LedgerState :=
  setStateWithRef val setIsImportingState setIsImportingRef s.

Definition resetStatusCodes (s : LedgerState) : LedgerState :=
  setStateWithRef [] setStatusCodes setStatusCodesRef s.

Definition cancelImport (s : LedgerState) : LedgerState :=
  resetStatusCodes (setIsImporting false s).

Definition getIsImporting (s : LedgerState) : bool := isImportingRef s.

(** ** The transport provider and the effect log *)

(** The identity a transport handle may carry. *)
Record DeviceModel : Type := mkDeviceModel {
  id : string;
  productName : string
}.

(** What [TransportWebHID.create()] resolves to; [deviceModel] may be
    absent ([undefined] or [null]). *)
Record Transport : Type := mkTransport {
  handle : nat;
  deviceModel : option DeviceModel
}.

(** Every effect of the asynchronous operations, in the order performed:
    the calls on the external collaborators with what they answered, and
    the calls of the [useState] setters with the value written. *)
Inductive Event : Type :=
| EvCreate (r : Outcome Transport)
| EvClose (t : Transport) (r : Outcome unit)
| EvNewPolkadot (t : Transport) (r : Outcome unit)
| EvGetAddress (t : Transport) (path : string) (confirm : bool) (r : Outcome Json)
| EvSetTransportError (e : LedgerResponse)
| EvSetLedgerDeviceInfo (j : Json)
| EvSetTransportResponse (j : Json).

(** The external hardware transport and protocol client.  Each answer may
    depend on everything that happened so far. *)
Record Provider : Type := mkProvider {
  create : list Event -> Outcome Transport;
  close : list Event -> Transport -> Outcome unit;
  newPolkadot : list Event -> Transport -> Outcome unit;
  getAddress : list Event -> Transport -> string -> bool -> Outcome Json
}.

Record World : Type := mkWorld {
  state : LedgerState;
  trace : list Event
}.

(** ** The monad of the asynchronous operations *)

Definition M (A : Type) : Type := World -> Outcome A * World.

Definition ret {A : Type} (a : A) : M A := fun w => (Returned a, w).

Definition bind {A B : Type} (c : M A) (k : A -> M B) : M B :=
  fun w =>
    match c w with
    | (Returned a, w') => k a w'
    | (Threw err, w') => (Threw err, w')
    end.

Definition throw {A : Type} (err : Json) : M A := fun w => (Threw err, w).

(** [try { body } catch (err) { handler }] *)
Definition tryCatch {A : Type} (body : M A) (handler : Json -> M A) : M A :=
  fun w =>
    match body w with
    | (Returned a, w') => (Returned a, w')
    | (Threw err, w') => handler err w'
    end.

Declare Scope ledger_scope.
Delimit Scope ledger_scope with ledger.
Notation "x <- c1 ;; c2" := (bind c1 (fun x => c2))
  (at level 61, c1 at next level, right associativity) : ledger_scope.
Notation "c1 ;; c2" := (bind c1 (fun _ => c2))
  (at level 61, right associativity) : ledger_scope.
Open Scope ledger_scope.

Definition log (e : Event) (w : World) : World :=
  {| state := state w; trace := trace w ++ [e] |}.

(** A call on a collaborator: it answers from the history and the call is
    logged with its answer. *)
Definition external {A : Type} (answer : list Event -> Outcome A)
    (ev : Outcome A -> Event) : M A :=
  fun w => let r := answer (trace w) in (r, log (ev r) w).

(** A call of a [useState] setter. *)
Definition setter (ev : Event) (f : LedgerState -> LedgerState) : M unit :=
  fun w => (Returned tt, log ev {| state := f (state w); trace := trace w |}).

Definition setTransportErrorM (e : LedgerResponse) : M unit :=
  setter (EvSetTransportError e) (setTransportError (Some e)).

Definition setLedgerDeviceInfoM (j : Json) : M unit :=
  setter (EvSetLedgerDeviceInfo j) (setLedgerDeviceInfo j).

Definition setTransportResponseM (j : Json) : M unit :=
  setter (EvSetTransportResponse j) (setTransportResponse j).

(** ** The asynchronous operations *)

Definition DeviceNotConnected : LedgerResponse :=
  {| ack := "failure"; statusCode := "DeviceNotConnected" |}.

Definition AppNotOpen : LedgerResponse :=
  {| ack := "failure"; statusCode := "AppNotOpen" |}.

(** [err?.id === 'NoDevice'] *)
Definition isNoDevice (err : Json) : bool :=
  strictEqStr (optGetProp err "id") "NoDevice".

Definition handleErrors (err : Json) : M unit :=
  if isNoDevice err
  then setTransportErrorM DeviceNotConnected
  else setTransportErrorM AppNotOpen.

(** [const { id, productName } = deviceModel] *)
Definition destructureDeviceModel (d : option DeviceModel) : M DeviceModel :=
  match d with
  | Some dm => ret dm
  | None =>
      throw (TypeError
        "Cannot destructure property 'id' of 'deviceModel' as it is undefined.")
  end.

(** An expression that raises or not, inside an operation. *)
Definition evaluate {A : Type} (o : Outcome A) : M A := fun w => (o, w).

Definition noticeBody (index : string) : string :=
  ("Getting addresess " ++ index ++ " in progress.")%string.

Definition pathOf (index : string) : string :=
  ("44'/354'/" ++ index ++ "'/0/0")%string.

(** The argument of the first [setTransportResponse]; its template literal
    converts [accountIndex] to a string. *)
Definition gettingAddressNotice (accountIndex : Json) : Outcome Json :=
  match toString accountIndex with
  | Returned index =>
      Returned (JObj [("ack", JStr "success");
                      ("statusCode", JStr "GettingAddress");
                      ("body", JStr (noticeBody index))])
  | Threw err => Threw err
  end.

(** The first argument of [polkadot.getAddress]. *)
Definition derivationPath (accountIndex : Json) : Outcome string :=
  match toString accountIndex with
  | Returned index => Returned (pathOf index)
  | Threw err => Threw err
  end.

Definition deviceJson (dm : DeviceModel) : Json :=
  JObj [("id", JStr (id dm)); ("productName", JStr (productName dm))].

Section Operations.

Variable P : Provider.

Definition TransportWebHID_create : M Transport :=
  external (create P) EvCreate.

Definition transport_close (t : Transport) : M unit :=
  external (fun h => close P h t) (EvClose t).

Definition new_Polkadot (t : Transport) : M unit :=
  external (fun h => newPolkadot P h t) (EvNewPolkadot t).

Definition polkadot_getAddress (t : Transport) (path : string)
    (confirm : bool) : M Json :=
  external (fun h => getAddress P h t path confirm)
           (EvGetAddress t path confirm).

Definition checkPaired : M bool :=
  tryCatch
    (_ <- TransportWebHID_create ;;
     ret true)
    (fun _ => ret false).

Definition handleGetAddress (transport : Transport) (accountIndex : Json)
  : M Json :=
  new_Polkadot transport ;;
  dm <- destructureDeviceModel (deviceModel transport) ;;
  notice <- evaluate (gettingAddressNotice accountIndex) ;;
  setTransportResponseM notice ;;
  path <- evaluate (derivationPath accountIndex) ;;
  address <- polkadot_getAddress transport path false ;;
  ret (JObj [("statusCode", JStr "ReceivedAddress");
             ("device", deviceJson dm);
             ("body", JArr [address])]).

(** [options.accountIndex ?? 0] *)
Definition accountIndexOf (options : Json) : M Json :=
  match getProp options "accountIndex" with
  | Returned v => ret (nullish v (JNum (safe 0)))
  | Threw err => throw err
  end.

(** The local [noDevice] is the value of the first block, [false] when
    the block is skipped; the local [transport] is the value bound in each
    [try].  An absent [options] argument is [JUndefined]. *)
Definition executeLedgerLoop (tasks : list LedgerTask) (options : Json)
  : M unit :=
  noDevice <-
    (if includes tasks "get_device_info" then
       tryCatch
         (transport <- TransportWebHID_create ;;
          match deviceModel transport with
          | Some dm => setLedgerDeviceInfoM (deviceJson dm)
          | None => ret tt
          end ;;
          transport_close transport ;;
          ret false)
         (fun err =>
            handleErrors err ;;
            ret true)
     else ret false) ;;
  if negb noDevice then
    tryCatch
      (transport <- TransportWebHID_create ;;
       (if includes tasks "get_address" then
          accountIndex <- accountIndexOf options ;;
          result <- handleGetAddress transport accountIndex ;;
          if truthy result then
            setTransportResponseM
              (JObj (spread [("ack", JStr "success"); ("options", options)]
                            result))
          else ret tt
        else ret tt) ;;
       transport_close transport)
      (fun err => handleErrors err)
  else ret tt.

End Operations.

(** ** Observations on the effect log *)

Definition Transport_eq_dec (a b : Transport) : {a = b} + {a <> b}.
Proof.
  decide equality.
  - decide equality. decide equality; apply string_dec.
  - apply Nat.eq_dec.
Defined.

Fixpoint removeFirst (t : Transport) (l : list Transport) : list Transport :=
  match l with
  | [] => []
  | x :: r => if Transport_eq_dec t x then r else x :: removeFirst t r
  end.

(** The handles a run of events leaves open: [create()] resolving opens
    one, a call of [close()] on it closes it. *)
Definition openHandlesFrom (acc : list Transport) (evs : list Event)
  : list Transport :=
  fold_left
    (fun acc e =>
       match e with
       | EvCreate (Returned t) => acc ++ [t]
       | EvClose t _ => removeFirst t acc
       | _ => acc
       end) evs acc.

Definition openHandles (evs : list Event) : list Transport :=
  openHandlesFrom [] evs.

Definition isCreate (e : Event) : bool :=
  match e with EvCreate _ => true | _ => false end.

Definition isSetTransportError (e : Event) : bool :=
  match e with EvSetTransportError _ => true | _ => false end.

(** The error an event reports, when the collaborator's call failed. *)
Definition eventError (e : Event) : option Json :=
  match e with
  | EvCreate (Threw err) | EvClose _ (Threw err)
  | EvNewPolkadot _ (Threw err) | EvGetAddress _ _ _ (Threw err) => Some err
  | _ => None
  end.

(** ** Providers and inputs the statements are tried on *)

Definition nanoS : DeviceModel := {| id := "nanoS"; productName := "Ledger Nano S" |}.

Definition noDeviceError : Json :=
  JObj [("name", JStr "TransportError");
        ("message", JStr "No Ledger device found");
        ("id", JStr "NoDevice")].

Definition statusError : Json :=
  JObj [("name", JStr "TransportStatusError");
        ("statusCode", JNum (safe 28161))].

Definition sampleAddress : Json :=
  JObj [("address", JStr "15oF4uVJwmo4TdGW7VfQxNLavjCXviqxT9S1MgbjMNHr6Sp5")].

(** Every call succeeds; handles are numbered by the calls made so far. *)
Definition workingProvider : Provider :=
  {| create := fun h => Returned {| handle := length h; deviceModel := Some nanoS |};
     close := fun _ _ => Returned tt;
     newPolkadot := fun _ _ => Returned tt;
     getAddress := fun _ _ _ _ => Returned sampleAddress |}.

(** No device is attached. *)
Definition unpluggedProvider : Provider :=
  {| create := fun _ => Threw noDeviceError;
     close := fun _ _ => Returned tt;
     newPolkadot := fun _ _ => Returned tt;
     getAddress := fun _ _ _ _ => Returned sampleAddress |}.

(** The device is attached, the Polkadot app is closed. *)
Definition appClosedProvider : Provider :=
  {| create := fun h => Returned {| handle := length h; deviceModel := Some nanoS |};
     close := fun _ _ => Returned tt;
     newPolkadot := fun _ _ => Returned tt;
     getAddress := fun _ _ _ _ => Threw statusError |}.

Definition initialWorld : World := {| state := initialState; trace := [] |}.

Definition accountOptions (i : SafeInt) : Json :=
  JObj [("accountIndex", JNum i)].

(** The device is attached and is pulled out while the address is derived. *)
Definition yankedProvider : Provider :=
  {| create := fun h => Returned {| handle := length h; deviceModel := Some nanoS |};
     close := fun _ _ => Returned tt;
     newPolkadot := fun _ _ => Returned tt;
     getAddress := fun _ _ _ _ => Threw noDeviceError |}.

(** The error is an object whose [id] is the string 'NoDevice'. *)
Definition carriesNoDeviceId (err : Json) : Prop :=
  exists fields, err = JObj fields /\ lookup "id" fields = Some (JStr "NoDevice").

(** The classification the error handling makes: the "no device" signal,
    or anything else. *)
Definition classify (err : Json) : LedgerResponse :=
  if isNoDevice err then DeviceNotConnected else AppNotOpen.

(** The effects a computation adds to the log when run from [w]. *)
Definition eventsOf {A : Type} (c : M A) (w : World) : list Event :=
  skipn (length (trace w)) (trace (snd (c w))).

(** A provider none of whose calls ever fails. *)
Definition allCallsSucceed (P : Provider) : Prop :=
  (forall h, exists t, create P h = Returned t) /\
  (forall h t, close P h t = Returned tt) /\
  (forall h t, newPolkadot P h t = Returned tt) /\
  (forall h t path confirm,
      exists address, getAddress P h t path confirm = Returned address).

(** Every handle the provider opens carries the device identity. *)
Definition identifiesDevice (P : Provider) : Prop :=
  forall h t, create P h = Returned t -> exists dm, deviceModel t = Some dm.

(** No handle opened during the call is left without a [close()]. *)
Definition closesEveryHandle (P : Provider) (tasks : list LedgerTask)
    (options : Json) (w : World) : Prop :=
  openHandles (eventsOf (executeLedgerLoop P tasks options) w) = [].

(** The handle both sample providers open first. *)
Definition device0 : Transport := {| handle := 0; deviceModel := Some nanoS |}.

(** ** Calls of [handleNewStatusCode] over time *)

(** One call: the entry, and [lag], which says through which render's
    function the call is made: 0 for the render of the state the previous
    call left, [k] for the render of the state [k] calls earlier (a function
    kept from an older render, or a call made before the component rendered
    again). *)
Record StatusCall : Type := mkStatusCall {
  lag : nat;
  callAck : string;
  callStatusCode : string
}.

Definition entryOf (call : StatusCall) : LedgerResponse :=
  mkLedgerResponse (callAck call) (callStatusCode call).

Definition current (history : list LedgerState) : LedgerState :=
  hd initialState history.

(** The array the render [lag] states back was given; beyond the first
    state, that of the current one. *)
Definition shownTo (n : nat) (history : list LedgerState)
  : list LedgerResponse :=
  statusCodes (nth n history (current history)).

(** The states so far, newest first, after one more call. *)
Definition stepCall (history : list LedgerState) (call : StatusCall)
  : list LedgerState :=
  handleNewStatusCode (shownTo (lag call) history)
    (callAck call) (callStatusCode call) (current history)
  :: history.

(** The states a sequence of calls goes through from the initial state,
    newest first. *)
Definition timeline (calls : list StatusCall) : list LedgerState :=
  fold_left stepCall calls [initialState].

Definition applyCalls (calls : list StatusCall) : LedgerState :=
  current (timeline calls).


(** Fifty calls, each through the latest render. *)
Definition fiftyCalls : list StatusCall :=
  repeat (mkStatusCall 0 "success" "Ok") 50.

(** ** Sequences of operations *)

(** One call of an operation the context exposes.  The provider is part of
    the call: the device may be plugged in or out between two calls. *)
Inductive Op : Type :=
| OpSetIsPaired (p : PairingStatus)
| OpSetIsImporting (val : bool)
| OpCancelImport
| OpResetStatusCodes
| OpHandleNewStatusCode (lag : nat) (ack statusCode : string)
| OpCheckPaired (P : Provider)
| OpExecuteLedgerLoop (P : Provider) (tasks : list LedgerTask) (options : Json).

Definition onState (f : LedgerState -> LedgerState) (w : World) : World :=
  {| state := f (state w); trace := trace w |}.

Definition currentWorld (w0 : World) (history : list World) : World :=
  hd w0 history.

(** One more call, from the worlds so far (newest first).  A status code
    call reads the array of the render [lag] worlds back. *)
Definition runOp (w0 : World) (history : list World) (o : Op) : World :=
  let w := currentWorld w0 history in
  match o with
  | OpSetIsPaired p => onState (setIsPaired p) w
  | OpSetIsImporting val => onState (setIsImporting val) w
  | OpCancelImport => onState cancelImport w
  | OpResetStatusCodes => onState resetStatusCodes w
  | OpHandleNewStatusCode n a c =>
      onState (handleNewStatusCode (statusCodes (state (nth n history w))) a c) w
  | OpCheckPaired P => snd (checkPaired P w)
  | OpExecuteLedgerLoop P tasks options => snd (executeLedgerLoop P tasks options w)
  end.

Definition stepOp (w0 : World) (history : list World) (o : Op) : list World :=
  runOp w0 history o :: history.

(** The worlds a sequence of calls goes through from [w], newest first. *)
Definition worldline (ops : list Op) (w : World) : list World :=
  fold_left (stepOp w) ops [w].

(** Calls made one after the other; the world they end in. *)
Definition runOps (ops : list Op) (w : World) : World :=
  currentWorld w (worldline ops w).

(** The mirrors hold what the state slots hold. *)
Definition inLockstep (s : LedgerState) : Prop :=
  isPairedRef s = isPaired s /\
  isImportingRef s = isImporting s /\
  statusCodesRef s = statusCodes s.

Definition isGetAddress (e : Event) : bool :=
  match e with EvGetAddress _ _ _ _ => true | _ => false end.

Definition isClose (e : Event) : bool :=
  match e with EvClose _ _ => true | _ => false end.

(** The device is attached, but [close()] always rejects. *)
Definition stuckProvider : Provider :=
  {| create := fun h => Returned {| handle := length h; deviceModel := Some nanoS |};
     close := fun _ _ => Threw statusError;
     newPolkadot := fun _ _ => Returned tt;
     getAddress := fun _ _ _ _ => Returned sampleAddress |}.

(** Handles come without a device model. *)
Definition anonymousProvider : Provider :=
  {| create := fun h => Returned {| handle := length h; deviceModel := None |};
     close := fun _ _ => Returned tt;
     newPolkadot := fun _ _ => Returned tt;
     getAddress := fun _ _ _ _ => Returned sampleAddress |}.

(** ** Proof support *)

Lemma skipn_length_app {A : Type} (l r : list A) :
  skipn (length l) (l ++ r) = r.
Proof. induction l; simpl; auto. Qed.

Lemma suffix_cons {A : Type} (a : A) (l s : list A) :
  (exists pre, l = pre ++ s) -> exists pre, a :: l = pre ++ s.
Proof. intros [pre ->]. now exists (a :: pre). Qed.

Lemma removeFirst_head (t : Transport) (l : list Transport) :
  removeFirst t (t :: l) = l.
Proof. simpl. destruct (Transport_eq_dec t t); congruence. Qed.

Lemma isNoDevice_id (err : Json) :
  isNoDevice err = true <-> optGetProp err "id" = JStr "NoDevice".
Proof.
  unfold isNoDevice, strictEqStr.
  destruct (optGetProp err "id"); try (split; discriminate).
  rewrite String.eqb_eq. split; congruence.
Qed.

(** The test of the error handler, on the error itself. *)
Lemma isNoDevice_carries (err : Json) :
  isNoDevice err = true <-> carriesNoDeviceId err.
Proof.
  rewrite isNoDevice_id. unfold carriesNoDeviceId, optGetProp, getProp. split.
  - destruct err as [| |b|n|s|l|fields]; try discriminate.
    destruct (lookup "id" fields) as [x|] eqn:E; [|discriminate].
    intros ->. now exists fields.
  - intros (fields & -> & E). now rewrite E.
Qed.

Lemma isNoDevice_other (err : Json) :
  isNoDevice err = false <-> ~ carriesNoDeviceId err.
Proof.
  rewrite <- isNoDevice_carries. destruct (isNoDevice err); split; congruence.
Qed.


Ltac unfold_ops :=
  unfold executeLedgerLoop, handleGetAddress,
    accountIndexOf, handleErrors, checkPaired, destructureDeviceModel,
    gettingAddressNotice, derivationPath, evaluate,
    TransportWebHID_create, transport_close, new_Polkadot, polkadot_getAddress,
    setTransportErrorM, setLedgerDeviceInfoM, setTransportResponseM,
    bind, tryCatch, ret, throw, external, setter, log.

(** One more answer of a collaborator, or one more test of the code. *)
Ltac split_step :=
  match goal with
  | |- context [includes ?t ?s] => destruct (includes t s) eqn:?
  | |- context [create ?P ?h] => destruct (create P h) eqn:?
  | |- context [deviceModel ?t] => destruct (deviceModel t) eqn:?
  | |- context [close ?P ?h ?t] => destruct (close P h t) eqn:?
  | |- context [newPolkadot ?P ?h ?t] => destruct (newPolkadot P h t) eqn:?
  | |- context [getProp ?o "accountIndex"] =>
      destruct (getProp o "accountIndex") eqn:?
  | |- context [toString ?j] => destruct (toString j) eqn:?
  | |- context [getAddress ?P ?h ?t ?p ?c] =>
      destruct (getAddress P h t p c) eqn:?
  | |- context [isNoDevice ?e] => destruct (isNoDevice e) eqn:?
  end.

Ltac norm :=
  repeat match goal with u : unit |- _ => destruct u end;
  cbn [state trace fst snd negb truthy].

Ltac split_run := unfold_ops; norm; repeat (split_step; norm).

(** Every path of one [executeLedgerLoop] call. *)
Ltac run_cases :=
  unfold eventsOf;
  match goal with
  | |- context [executeLedgerLoop ?P ?t ?o ?w] =>
      let r := fresh "r" in
      let w' := fresh "w'" in
      let H := fresh "Hrun" in
      destruct (executeLedgerLoop P t o w) as [r w'] eqn:H;
      revert H; split_run; intros H; injection H as <- <-
  end.

Ltac events :=
  unfold eventsOf; norm; rewrite <- ?app_assoc; rewrite ?skipn_length_app;
  cbn [app].

Ltac handles :=
  unfold openHandles, openHandlesFrom; cbn [fold_left];
  repeat progress (cbn [app]; rewrite ?removeFirst_head).

Ltac pick_prefix :=
  repeat first [ exists []; reflexivity | apply suffix_cons ].

Ltac in_cases H :=
  cbn [In] in H;
  repeat match type of H with
         | _ \/ _ => destruct H as [H|H]
         | False => destruct H
         end.

(** ** Status codes *)

Section StatusCodes.

Lemma handleNewStatusCode_statusCodes shown a c s :
  statusCodes (handleNewStatusCode shown a c s) =
  if Nat.ltb 50 (S (length shown))
  then removelast (mkLedgerResponse a c :: shown)
  else mkLedgerResponse a c :: shown.
Proof. reflexivity. Qed.


Lemma removelast_cons_length {A} (x : A) (l : list A) :
  length (removelast (x :: l)) = length l.
Proof.
  revert x. induction l as [|y l IH]; intros x; [reflexivity|].
  change (removelast (x :: y :: l)) with (x :: removelast (y :: l)).
  cbn [length]. f_equal. apply IH.
Qed.

Lemma handleNewStatusCode_below shown a c s :
  length shown < 50 ->
  statusCodes (handleNewStatusCode shown a c s) = mkLedgerResponse a c :: shown.
Proof.
  intros H. rewrite handleNewStatusCode_statusCodes.
  destruct (Nat.ltb_spec 50 (S (length shown))); [lia|reflexivity].
Qed.

Lemma handleNewStatusCode_full shown a c s :
  50 <= length shown ->
  statusCodes (handleNewStatusCode shown a c s) =
  mkLedgerResponse a c :: removelast shown.
Proof.
  intros H. rewrite handleNewStatusCode_statusCodes.
  destruct (Nat.ltb_spec 50 (S (length shown))); [|lia].
  destruct shown as [|y l]; [simpl in H; lia|reflexivity].
Qed.

Lemma handleNewStatusCode_bound shown a c s :
  length shown <= 50 ->
  length (statusCodes (handleNewStatusCode shown a c s)) <= 50.
Proof.
  intros H. rewrite handleNewStatusCode_statusCodes.
  destruct (Nat.ltb_spec 50 (S (length shown))).
  - rewrite removelast_cons_length. exact H.
  - simpl. lia.
Qed.

Lemma timeline_snoc calls call :
  timeline (calls ++ [call]) = stepCall (timeline calls) call.
Proof. unfold timeline. now rewrite fold_left_app. Qed.

Lemma nth_hd_In {A : Type} (n : nat) (l : list A) (d : A) :
  l <> [] -> In (nth n l (hd d l)) l.
Proof.
  intros Hl. destruct (Nat.lt_ge_cases n (length l)) as [H|H].
  - now apply nth_In.
  - rewrite nth_overflow by exact H. destruct l; [congruence|now left].
Qed.



Lemma applyCalls_snoc calls call :
  applyCalls (calls ++ [call]) =
  handleNewStatusCode (shownTo (lag call) (timeline calls))
    (callAck call) (callStatusCode call) (applyCalls calls).
Proof. unfold applyCalls. now rewrite timeline_snoc. Qed.

End StatusCodes.



(** C9: [resetStatusCodes] empties the status code sequence (and its
    mirror) and leaves every other slot as it was. *)
Theorem resetStatusCodes_frame :
  forall s : LedgerState,
    let s' := resetStatusCodes s in
    statusCodes s' = [] /\ statusCodesRef s' = [] /\
    isImporting s' = isImporting s /\ isImportingRef s' = isImportingRef s /\
    isPaired s' = isPaired s /\ isPairedRef s' = isPairedRef s /\
    transportError s' = transportError s /\
    ledgerDeviceInfo s' = ledgerDeviceInfo s /\
    transportResponse s' = transportResponse s.
Proof. intros s. repeat split. Qed.

(** [cancelImport] lowers the importing flag and empties the status codes,
    in the state slots and in their mirrors. *)
Lemma cancelImport_clears (s : LedgerState) :
  let s' := cancelImport s in
  isImporting s' = false /\ getIsImporting s' = false /\
  statusCodes s' = [] /\ statusCodesRef s' = [] /\
  isPaired s' = isPaired s /\ isPairedRef s' = isPairedRef s.
Proof. repeat split. Qed.

(** The setters keep a state slot and its mirror in lockstep. *)
Lemma setters_lockstep (p : PairingStatus) (v : bool) (s : LedgerState) :
  isPairedRef (setIsPaired p s) = isPaired (setIsPaired p s) /\
  isImportingRef (setIsImporting v s) = isImporting (setIsImporting v s).
Proof. split; reflexivity. Qed.
(** ** Pairing probe *)

(** C10: [checkPaired] answers [false] when [create()] rejects and [true]
    when it resolves; in both cases it leaves every state slot as it was,
    and the call of [create()] is its only effect. *)
Theorem checkPaired_probe :
  forall (P : Provider) (w : World),
    let r := checkPaired P w in
    (forall err, create P (trace w) = Threw err -> fst r = Returned false) /\
    (forall t, create P (trace w) = Returned t -> fst r = Returned true) /\
    state (snd r) = state w /\
    eventsOf (checkPaired P) w = [EvCreate (create P (trace w))].
Proof.
  intros P w r. subst r. unfold eventsOf.
  split_run; events; repeat split; congruence.
Qed.

Lemma checkPaired_probe_witness :
  fst (checkPaired unpluggedProvider initialWorld) = Returned false /\
  fst (checkPaired workingProvider initialWorld) = Returned true.
Proof.
  split.
  - apply (checkPaired_probe unpluggedProvider initialWorld) with (err := noDeviceError).
    reflexivity.
  - apply (checkPaired_probe workingProvider initialWorld) with (t := device0).
    reflexivity.
Defined.

(** ** The task loop *)

Section LoopFacts.

Variable P : Provider.
Variable tasks : list LedgerTask.
Variable options : Json.
Variable w : World.

Lemma executeLedgerLoop_returns :
  fst (executeLedgerLoop P tasks options w) = Returned tt.
Proof. split_run; reflexivity. Qed.

(** A failed call on a collaborator is followed by the write of
    [TransportError], and by nothing else. *)
Lemma failure_is_last e err :
  In e (eventsOf (executeLedgerLoop P tasks options) w) ->
  eventError e = Some err ->
  exists pre,
    eventsOf (executeLedgerLoop P tasks options) w =
    pre ++ [e; EvSetTransportError (classify err)].
Proof.
  intros Hin Herr. revert Hin. run_cases; events; intros Hin;
    in_cases Hin; subst e; cbn [eventError] in Herr;
    try discriminate Herr.
  all: injection Herr as <-; unfold classify.
  all: match goal with H : isNoDevice _ = _ |- _ => rewrite H end.
  all: pick_prefix.
Qed.

Lemma failure_recorded e err :
  In e (eventsOf (executeLedgerLoop P tasks options) w) ->
  eventError e = Some err ->
  transportError (state (snd (executeLedgerLoop P tasks options w))) =
  Some (classify err).
Proof.
  intros Hin Herr. revert Hin. run_cases; events; intros Hin;
    in_cases Hin; subst e; cbn [eventError] in Herr;
    try discriminate Herr.
  all: injection Herr as <-; unfold classify.
  all: match goal with H : isNoDevice _ = _ |- _ => rewrite H end.
  all: reflexivity.
Qed.

End LoopFacts.

(** C1: when [get_device_info] is requested and [create()] fails with the
    "no device" signal, the call returns normally, TransportError becomes
    {failure, DeviceNotConnected}, DeviceInfo and every other slot stay as
    they were, and the failed [create()] is the only call made on the
    provider: the address phase does not run. *)
Theorem no_device_stops_loop :
  forall (P : Provider) (tasks : list LedgerTask) (options : Json)
         (w : World) (err : Json),
    includes tasks "get_device_info" = true ->
    create P (trace w) = Threw err ->
    isNoDevice err = true ->
    let r := executeLedgerLoop P tasks options w in
    fst r = Returned tt /\
    transportError (state (snd r)) = Some DeviceNotConnected /\
    ledgerDeviceInfo (state (snd r)) = ledgerDeviceInfo (state w) /\
    state (snd r) = setTransportError (Some DeviceNotConnected) (state w) /\
    eventsOf (executeLedgerLoop P tasks options) w =
      [EvCreate (Threw err); EvSetTransportError DeviceNotConnected] /\
    length (filter isCreate (eventsOf (executeLedgerLoop P tasks options) w)) = 1.
Proof.
  intros P tasks options w err Ht Hc He r. subst r.
  unfold eventsOf. unfold_ops. rewrite Ht. norm. rewrite Hc. norm.
  rewrite He. norm. events. repeat split.
Qed.

Lemma no_device_stops_loop_witness :
  includes ["get_device_info"] "get_device_info" = true /\
  create unpluggedProvider (trace initialWorld) = Threw noDeviceError /\
  isNoDevice noDeviceError = true /\
  eventsOf (executeLedgerLoop unpluggedProvider ["get_device_info"] JUndefined)
    initialWorld =
  [EvCreate (Threw noDeviceError); EvSetTransportError DeviceNotConnected].
Proof.
  do 3 (split; [reflexivity|]).
  apply (no_device_stops_loop unpluggedProvider ["get_device_info"] JUndefined
           initialWorld noDeviceError); reflexivity.
Defined.


Lemma workingProvider_succeeds : allCallsSucceed workingProvider.
Proof. repeat split; intros; eexists; reflexivity. Defined.

Lemma workingProvider_identifies : identifiesDevice workingProvider.
Proof. intros h t H. injection H as <-. eexists; reflexivity. Defined.




(** Where C2 stops: a handle without a device model makes the address
    sub-routine raise at the destructuring, before any notice is written;
    the error is recorded as {failure, AppNotOpen}. *)
Lemma get_address_without_device_model (P : Provider) (w : World) (t : Transport) :
  create P (trace w) = Returned t ->
  deviceModel t = None ->
  newPolkadot P (trace w ++ [EvCreate (Returned t)]) t = Returned tt ->
  let r := executeLedgerLoop P ["get_address"] (accountOptions (safe 0)) w in
  transportResponse (state (snd r)) = transportResponse (state w) /\
  transportError (state (snd r)) = Some AppNotOpen /\
  eventsOf (executeLedgerLoop P ["get_address"] (accountOptions (safe 0))) w =
    [EvCreate (Returned t); EvNewPolkadot t (Returned tt);
     EvSetTransportError AppNotOpen].
Proof.
  intros Ht Hdm Hnew r. subst r.
  unfold eventsOf, accountOptions. unfold_ops. norm.
  change (includes ["get_address"] "get_device_info") with false.
  change (includes ["get_address"] "get_address") with true.
  change (getProp (JObj [("accountIndex", JNum (safe 0))]) "accountIndex")
    with (Returned (JNum (safe 0))).
  norm. rewrite Ht. norm. rewrite Hnew. norm. rewrite Hdm. cbn. events.
  repeat split.
Qed.

(** C3: whatever the tasks, the options (absent ones included) and the
    answers of the provider and of the protocol client, the call returns
    normally; an error raised by one of their calls is recorded in
    TransportError, and that write is the one effect that follows the
    failed call. *)
Theorem failures_recovered_locally :
  forall (P : Provider) (tasks : list LedgerTask) (options : Json) (w : World),
    let r := executeLedgerLoop P tasks options w in
    fst r = Returned tt /\
    forall e err,
      In e (eventsOf (executeLedgerLoop P tasks options) w) ->
      eventError e = Some err ->
      transportError (state (snd r)) = Some (classify err) /\
      exists pre,
        eventsOf (executeLedgerLoop P tasks options) w =
        pre ++ [e; EvSetTransportError (classify err)].
Proof.
  intros P tasks options w r. subst r. split.
  - apply executeLedgerLoop_returns.
  - intros e err Hin Herr. split.
    + now apply failure_recorded with (e := e).
    + now apply failure_is_last.
Qed.

Lemma failures_recovered_locally_witness :
  transportError
    (state (snd (executeLedgerLoop appClosedProvider ["get_address"]
                   (accountOptions (safe 2)) initialWorld))) =
  Some (classify statusError).
Proof.
  destruct (failures_recovered_locally appClosedProvider ["get_address"]
              (accountOptions (safe 2)) initialWorld) as [_ H].
  apply (H (EvGetAddress device0 "44'/354'/2'/0/0" false (Threw statusError))
           statusError).
  - vm_compute. do 3 right. left. reflexivity.
  - reflexivity.
Defined.

(** C4, as the code has it: the error handler knows two kinds.  An error
    that is an object whose [id] is 'NoDevice' gives {failure,
    DeviceNotConnected}, any other error gives {failure, AppNotOpen}; the
    same holds of TransportError after a call of [executeLedgerLoop] in
    which a collaborator's call failed, whichever call it was: a failed
    address derivation leaves {failure, AppNotOpen} unless its error carries
    the id 'NoDevice', and {failure, DeviceNotConnected} when it does. *)
Theorem two_kind_classification :
  forall (P : Provider) (tasks : list LedgerTask) (options : Json) (w : World),
    let r := executeLedgerLoop P tasks options w in
    let evs := eventsOf (executeLedgerLoop P tasks options) w in
    (forall fields w0,
        lookup "id" fields = Some (JStr "NoDevice") ->
        transportError (state (snd (handleErrors (JObj fields) w0))) =
        Some DeviceNotConnected) /\
    (forall err w0,
        ~ carriesNoDeviceId err ->
        transportError (state (snd (handleErrors err w0))) = Some AppNotOpen) /\
    (forall e err,
        In e evs -> eventError e = Some err ->
        (carriesNoDeviceId err ->
         transportError (state (snd r)) = Some DeviceNotConnected) /\
        (~ carriesNoDeviceId err ->
         transportError (state (snd r)) = Some AppNotOpen)) /\
    (forall t path confirm err,
        In (EvGetAddress t path confirm (Threw err)) evs ->
        (carriesNoDeviceId err ->
         transportError (state (snd r)) = Some DeviceNotConnected) /\
        (~ carriesNoDeviceId err ->
         transportError (state (snd r)) = Some AppNotOpen)).
Proof.
  intros P tasks options w r evs. subst r evs.
  assert (Hloop : forall e err,
             In e (eventsOf (executeLedgerLoop P tasks options) w) ->
             eventError e = Some err ->
             (carriesNoDeviceId err ->
              transportError (state (snd (executeLedgerLoop P tasks options w))) =
              Some DeviceNotConnected) /\
             (~ carriesNoDeviceId err ->
              transportError (state (snd (executeLedgerLoop P tasks options w))) =
              Some AppNotOpen)).
  { intros e err Hin Herr.
    rewrite (failure_recorded _ _ _ _ e err Hin Herr). unfold classify.
    split; intros H.
    - apply isNoDevice_carries in H. now rewrite H.
    - apply isNoDevice_other in H. now rewrite H. }
  repeat apply conj.
  - intros fields w0 H. unfold handleErrors.
    assert (E : isNoDevice (JObj fields) = true).
    { apply isNoDevice_carries. now exists fields. }
    now rewrite E.
  - intros err w0 H. unfold handleErrors.
    apply isNoDevice_other in H. now rewrite H.
  - exact Hloop.
  - intros t path confirm err Hin. now apply (Hloop _ err Hin).
Qed.

(** Both kinds, on the errors of the sample providers. *)
Lemma two_kind_classification_witness :
  transportError (state (snd (handleErrors noDeviceError initialWorld))) =
    Some DeviceNotConnected /\
  transportError
    (state (snd (executeLedgerLoop yankedProvider ["get_address"]
                   (accountOptions (safe 2)) initialWorld))) =
    Some DeviceNotConnected /\
  transportError
    (state (snd (executeLedgerLoop appClosedProvider ["get_address"]
                   (accountOptions (safe 2)) initialWorld))) =
    Some AppNotOpen.
Proof.
  repeat apply conj.
  - destruct (two_kind_classification workingProvider [] JUndefined initialWorld)
      as (H & _).
    apply H. reflexivity.
  - destruct (two_kind_classification yankedProvider ["get_address"]
                (accountOptions (safe 2)) initialWorld) as (_ & _ & _ & H).
    apply (H device0 "44'/354'/2'/0/0" false noDeviceError).
    + vm_compute. do 3 right. left. reflexivity.
    + eexists. split; reflexivity.
  - destruct (two_kind_classification appClosedProvider ["get_address"]
                (accountOptions (safe 2)) initialWorld) as (_ & _ & _ & H).
    apply (H device0 "44'/354'/2'/0/0" false statusError).
    + vm_compute. do 3 right. left. reflexivity.
    + intros (fields & E & Hid). injection E as <-. discriminate Hid.
Defined.

(** C4 as claimed fails in its last part: the address derivation fails after
    a successful [create()], with the "no device" error, and TransportError
    is {failure, DeviceNotConnected}, not {failure, AppNotOpen}. *)
Lemma failed_derivation_not_always_app_not_open :
  In (EvGetAddress device0 "44'/354'/2'/0/0" false (Threw noDeviceError))
     (eventsOf (executeLedgerLoop yankedProvider ["get_address"]
                  (accountOptions (safe 2))) initialWorld) /\
  In (EvCreate (Returned device0))
     (eventsOf (executeLedgerLoop yankedProvider ["get_address"]
                  (accountOptions (safe 2))) initialWorld) /\
  transportError
    (state (snd (executeLedgerLoop yankedProvider ["get_address"]
                   (accountOptions (safe 2)) initialWorld))) =
    Some DeviceNotConnected /\
  transportError
    (state (snd (executeLedgerLoop yankedProvider ["get_address"]
                   (accountOptions (safe 2)) initialWorld))) <>
    Some AppNotOpen.
Proof.
  repeat apply conj.
  - vm_compute. do 3 right. left. reflexivity.
  - vm_compute. left. reflexivity.
  - reflexivity.
  - vm_compute. discriminate.
Qed.

(** C6, as the code has it: a handle opened by [create()] gets its
    [close()] before the call completes when the call records no failure,
    and always when [get_address] is not requested; when the address
    derivation fails, the handle of the address phase is left without a
    [close()].  At most one handle is left open by a call. *)
Theorem close_on_success_path :
  forall (P : Provider) (tasks : list LedgerTask) (options : Json) (w : World),
    let evs := eventsOf (executeLedgerLoop P tasks options) w in
    (existsb isSetTransportError evs = false -> openHandles evs = []) /\
    (includes tasks "get_address" = false -> openHandles evs = []) /\
    (forall t path confirm err,
        In (EvGetAddress t path confirm (Threw err)) evs ->
        openHandles evs = [t]) /\
    length (openHandles evs) <= 1.
Proof.
  intros P tasks options w evs. subst evs.
  run_cases; events; handles; repeat apply conj.
  all: lazymatch goal with
       | |- _ = false -> _ =>
           cbn [existsb isSetTransportError orb]; intros H;
           first [reflexivity | discriminate H]
       | |- forall _, _ =>
           intros t' path confirm err' H; in_cases H; try discriminate H;
           injection H as -> _ _ _; reflexivity
       | |- _ <= _ => cbn [length]; lia
       end.
Qed.

Lemma close_on_success_path_witness :
  openHandles
    (eventsOf (executeLedgerLoop workingProvider ["get_device_info"; "get_address"]
                 (accountOptions (safe 0))) initialWorld) = [] /\
  openHandles
    (eventsOf (executeLedgerLoop appClosedProvider ["get_address"]
                 (accountOptions (safe 2))) initialWorld) = [device0].
Proof.
  split.
  - destruct (close_on_success_path workingProvider
                ["get_device_info"; "get_address"] (accountOptions (safe 0))
                initialWorld) as (H & _).
    apply H. reflexivity.
  - destruct (close_on_success_path appClosedProvider ["get_address"]
                (accountOptions (safe 2)) initialWorld) as (_ & _ & H & _).
    apply (H device0 "44'/354'/2'/0/0" false statusError).
    vm_compute. do 3 right. left. reflexivity.
Defined.

(** C6 as claimed fails: with the app closed on the device the address
    derivation raises, and the handle opened for it is never closed. *)
Lemma handle_left_open :
  openHandles
    (eventsOf (executeLedgerLoop appClosedProvider ["get_address"] (accountOptions (safe 2)))
       initialWorld) = [device0] /\
  ~ closesEveryHandle appClosedProvider ["get_address"] (accountOptions (safe 2))
      initialWorld.
Proof.
  split; [reflexivity|].
  unfold closesEveryHandle. vm_compute. discriminate.
Qed.

(** C7, at the input where the code departs from it: with [get_address]
    requested and no options argument, reading [options.accountIndex]
    raises; the error is recorded as {failure, AppNotOpen}, the address
    sub-routine is not entered (no protocol client is built, no address is
    asked for) and the handle is not closed. *)
Theorem absent_options_skip_address_fetch :
  forall (P : Provider) (w : World) (t : Transport),
    create P (trace w) = Returned t ->
    let r := executeLedgerLoop P ["get_address"] JUndefined w in
    fst r = Returned tt /\
    state (snd r) = setTransportError (Some AppNotOpen) (state w) /\
    eventsOf (executeLedgerLoop P ["get_address"] JUndefined) w =
      [EvCreate (Returned t); EvSetTransportError AppNotOpen].
Proof.
  intros P w t Ht r. subst r. unfold eventsOf. unfold_ops. norm.
  change (includes ["get_address"] "get_device_info") with false.
  change (includes ["get_address"] "get_address") with true.
  norm. rewrite Ht. cbn. events. repeat split.
Qed.

Lemma absent_options_skip_address_fetch_witness :
  create workingProvider (trace initialWorld) = Returned device0 /\
  eventsOf (executeLedgerLoop workingProvider ["get_address"] JUndefined)
    initialWorld =
  [EvCreate (Returned device0); EvSetTransportError AppNotOpen].
Proof.
  split; [reflexivity|].
  apply (absent_options_skip_address_fetch workingProvider initialWorld device0).
  reflexivity.
Defined.

(** With an options object the account index is the configured one, and 0
    when the object configures none. *)
Lemma accountIndexOf_object (fields : list (string * Json)) (w : World) :
  accountIndexOf (JObj fields) w =
  (Returned match lookup "accountIndex" fields with
            | Some v => nullish v (JNum (safe 0))
            | None => JNum (safe 0)
            end, w).
Proof.
  unfold accountIndexOf, getProp.
  destruct (lookup "accountIndex" fields); reflexivity.
Qed.

(** C8, as the code has it: when the address derivation fails,
    [get_address] was requested and TransportResponse holds the progress
    notice written just before the derivation call, with ack 'success' and
    statusCode 'GettingAddress': the notice is not rolled back.
    TransportError holds the failure at the same time: {failure, AppNotOpen},
    or {failure, DeviceNotConnected} when the error carries the id
    'NoDevice'. *)
Theorem progress_notice_survives_failure :
  forall (P : Provider) (tasks : list LedgerTask) (options : Json) (w : World)
         (t : Transport) (path : string) (confirm : bool) (err : Json),
    In (EvGetAddress t path confirm (Threw err))
       (eventsOf (executeLedgerLoop P tasks options) w) ->
    let r := executeLedgerLoop P tasks options w in
    exists v index,
      let notice :=
        JObj [("ack", JStr "success");
              ("statusCode", JStr "GettingAddress");
              ("body", JStr (noticeBody index))] in
      includes tasks "get_address" = true /\
      getProp options "accountIndex" = Returned v /\
      toString (nullish v (JNum (safe 0))) = Returned index /\
      transportResponse (state (snd r)) = notice /\
      (carriesNoDeviceId err ->
       transportError (state (snd r)) = Some DeviceNotConnected) /\
      (~ carriesNoDeviceId err ->
       transportError (state (snd r)) = Some AppNotOpen) /\
      path = pathOf index /\ confirm = false /\
      exists kind,
        transportError (state (snd r)) = Some kind /\
        exists pre,
          eventsOf (executeLedgerLoop P tasks options) w =
          pre ++ [EvSetTransportResponse notice;
                  EvGetAddress t path confirm (Threw err);
                  EvSetTransportError kind].
Proof.
  intros P tasks options w t path confirm err Hin r. subst r.
  revert Hin.
  run_cases; events; intros Hin; in_cases Hin; try discriminate Hin.
  all: injection Hin; intros; subst.
  all: match goal with
       | Hv : getProp _ _ = Returned ?v, Hs : toString _ = Returned ?s |- _ =>
           exists v, s
       end.
  all: cbv zeta; repeat apply conj; try reflexivity; try assumption.
  all: try (intros H;
            first [ apply isNoDevice_carries in H | apply isNoDevice_other in H ];
            congruence).
  all: eexists; split; [reflexivity|pick_prefix].
Qed.

Lemma progress_notice_survives_failure_witness :
  exists index,
    transportResponse
      (state (snd (executeLedgerLoop appClosedProvider ["get_address"]
                     (accountOptions (safe 2)) initialWorld))) =
      JObj [("ack", JStr "success");
            ("statusCode", JStr "GettingAddress");
            ("body", JStr (noticeBody index))] /\
    transportError
      (state (snd (executeLedgerLoop appClosedProvider ["get_address"]
                     (accountOptions (safe 2)) initialWorld))) =
      Some AppNotOpen.
Proof.
  destruct (progress_notice_survives_failure appClosedProvider ["get_address"]
              (accountOptions (safe 2)) initialWorld
              device0 "44'/354'/2'/0/0" false statusError)
    as (v & index & _ & _ & _ & Hresponse & _ & Herror & _).
  - vm_compute. do 3 right. left. reflexivity.
  - exists index. split; [assumption|]. apply Herror.
    intros (fields & E & Hid). injection E as <-. discriminate Hid.
Defined.

(** C8 as claimed fails in its last part: the derivation fails with the "no
    device" error; the progress notice stays in TransportResponse, and
    TransportError is {failure, DeviceNotConnected}. *)
Lemma notice_beside_device_not_connected :
  transportResponse
    (state (snd (executeLedgerLoop yankedProvider ["get_address"]
                   (accountOptions (safe 2)) initialWorld))) =
    JObj [("ack", JStr "success");
          ("statusCode", JStr "GettingAddress");
          ("body", JStr "Getting addresess 2 in progress.")] /\
  eventsOf (executeLedgerLoop yankedProvider ["get_address"]
              (accountOptions (safe 2))) initialWorld =
    [EvCreate (Returned device0);
     EvNewPolkadot device0 (Returned tt);
     EvSetTransportResponse
       (JObj [("ack", JStr "success");
              ("statusCode", JStr "GettingAddress");
              ("body", JStr "Getting addresess 2 in progress.")]);
     EvGetAddress device0 "44'/354'/2'/0/0" false (Threw noDeviceError);
     EvSetTransportError DeviceNotConnected] /\
  transportError
    (state (snd (executeLedgerLoop yankedProvider ["get_address"]
                   (accountOptions (safe 2)) initialWorld))) <>
    Some AppNotOpen.
Proof.
  repeat apply conj.
  - reflexivity.
  - reflexivity.
  - vm_compute. discriminate.
Qed.
(** ** More on status codes *)

Lemma firstn_push {A : Type} (e : A) (L : list A) :
  (if Nat.ltb 50 (S (length (firstn 50 L)))
   then removelast (e :: firstn 50 L)
   else e :: firstn 50 L) = firstn 50 (e :: L).
Proof.
  destruct (Nat.ltb_spec 50 (S (length (firstn 50 L)))) as [H|H].
  - assert (Hl : 50 <= length L).
    { rewrite length_firstn in H. lia. }
    change (firstn 50 (e :: L)) with (e :: firstn 49 L).
    rewrite <- (removelast_firstn (n := 49) L) by lia.
    destruct (firstn 50 L) eqn:E; [simpl in H; lia|reflexivity].
  - rewrite length_firstn in H.
    assert (Hl : length L < 50) by lia.
    rewrite (firstn_all2 (n := 50) L) by lia.
    rewrite (firstn_all2 (n := 50) (e :: L)) by (simpl; lia).
    reflexivity.
Qed.

Lemma shownTo_zero (history : list LedgerState) :
  shownTo 0 history = statusCodes (current history).
Proof. destruct history; reflexivity. Qed.

Lemma timeline_length (calls : list StatusCall) :
  length (timeline calls) = S (length calls).
Proof.
  induction calls as [|call calls IH] using rev_ind; [reflexivity|].
  rewrite timeline_snoc, length_app. unfold stepCall. simpl. lia.
Qed.

(** X1: from the empty sequence, when every call of [handleNewStatusCode]
    goes through the latest render, the status codes are the entries of the
    last fifty calls, newest first, and their number is the number of calls
    capped at 50.  A call that goes through the same render as the call
    before it (no render in between) replaces what that call wrote: the
    earlier entry is lost. *)
Theorem statusCodes_last_fifty :
  (forall calls : list StatusCall,
      Forall (fun call => lag call = 0) calls ->
      statusCodes (applyCalls calls) =
        firstn TOTAL_ALLOWED_STATUS_CODES (rev (map entryOf calls)) /\
      length (statusCodes (applyCalls calls)) =
        Nat.min (length calls) TOTAL_ALLOWED_STATUS_CODES) /\
  (forall (calls : list StatusCall) (first second : StatusCall),
      lag first <= length calls ->
      lag second = S (lag first) ->
      statusCodes (applyCalls (calls ++ [first; second])) =
      statusCodes (applyCalls
                     (calls ++ [mkStatusCall (lag first) (callAck second)
                                  (callStatusCode second)]))).
Proof.
  split.
  - intros calls Hlag.
    assert (H : statusCodes (applyCalls calls) =
                firstn 50 (rev (map entryOf calls))).
    { induction calls as [|call calls IH] using rev_ind; [reflexivity|].
      apply Forall_app in Hlag. destruct Hlag as [Hcalls Hcall].
      inversion Hcall as [|? ? H0 _]; subst.
      rewrite applyCalls_snoc, handleNewStatusCode_statusCodes.
      rewrite H0, shownTo_zero. fold (applyCalls calls).
      rewrite (IH Hcalls), map_app, rev_app_distr. apply firstn_push. }
    split; [exact H|].
    rewrite H. unfold TOTAL_ALLOWED_STATUS_CODES.
    rewrite length_firstn, length_rev, length_map. lia.
  - intros calls first second Hfirst Hsecond.
    change (calls ++ [first; second]) with (calls ++ [first] ++ [second]).
    rewrite app_assoc, !applyCalls_snoc, !handleNewStatusCode_statusCodes.
    cbn [lag callAck callStatusCode].
    assert (E : shownTo (lag second) (timeline (calls ++ [first])) =
                shownTo (lag first) (timeline calls)).
    { rewrite Hsecond, timeline_snoc. unfold stepCall, shownTo, current.
      cbn [nth hd]. f_equal. apply nth_indep.
      rewrite timeline_length. lia. }
    now rewrite E.
Qed.

(** Two calls in one render: only the second entry is there. *)
Lemma statusCodes_last_fifty_witness :
  statusCodes (applyCalls [mkStatusCall 0 "success" "A";
                           mkStatusCall 1 "failure" "B"]) =
  [mkLedgerResponse "failure" "B"].
Proof.
  destruct statusCodes_last_fifty as [_ H].
  exact (eq_trans
           (H [] (mkStatusCall 0 "success" "A") (mkStatusCall 1 "failure" "B")
              (Nat.le_refl 0) eq_refl)
           eq_refl).
Defined.

(** X2: whatever array the render showed and whatever the state of the
    time of the call, [handleNewStatusCode] puts its entry at index 0,
    writes the mirror with the same array and touches no other slot; the new
    array is one longer than the array shown below 50 entries and as long
    as it from 50 on (one [pop()] per call, so an array longer than 50 is
    not cut back). *)
Theorem handleNewStatusCode_single_pop :
  forall (shown : list LedgerResponse) (a c : string) (s : LedgerState),
    let s' := handleNewStatusCode shown a c s in
    hd_error (statusCodes s') = Some (mkLedgerResponse a c) /\
    statusCodesRef s' = statusCodes s' /\
    (length shown < TOTAL_ALLOWED_STATUS_CODES ->
     length (statusCodes s') = S (length shown)) /\
    (TOTAL_ALLOWED_STATUS_CODES <= length shown ->
     length (statusCodes s') = length shown) /\
    isPaired s' = isPaired s /\ isPairedRef s' = isPairedRef s /\
    isImporting s' = isImporting s /\ isImportingRef s' = isImportingRef s /\
    transportError s' = transportError s /\
    ledgerDeviceInfo s' = ledgerDeviceInfo s /\
    transportResponse s' = transportResponse s.
Proof.
  intros shown a c s s'. subst s'. unfold TOTAL_ALLOWED_STATUS_CODES.
  repeat apply conj; try reflexivity.
  - destruct (Nat.lt_ge_cases (length shown) 50) as [H|H].
    + now rewrite handleNewStatusCode_below.
    + now rewrite handleNewStatusCode_full.
  - intros H. now rewrite handleNewStatusCode_below.
  - intros H. rewrite handleNewStatusCode_full by exact H.
    cbn [length].
    destruct shown as [|y l]; [simpl in H; lia|].
    now rewrite removelast_cons_length.
Qed.

Lemma handleNewStatusCode_single_pop_witness :
  length (statusCodes (handleNewStatusCode (statusCodes (applyCalls fiftyCalls))
                         "failure" "Late" (applyCalls fiftyCalls))) =
  length (statusCodes (applyCalls fiftyCalls)).
Proof.
  destruct (handleNewStatusCode_single_pop (statusCodes (applyCalls fiftyCalls))
              "failure" "Late" (applyCalls fiftyCalls)) as (_ & _ & _ & H & _).
  apply H. apply Nat.leb_le. reflexivity.
Defined.

(** X3: [cancelImport] lowers the importing flag and empties the status
    codes, in the slots and in the mirrors, and leaves pairing status,
    TransportError, DeviceInfo and TransportResponse alone; it is idempotent
    and absorbs a status code or an importing flag set just before. *)
Theorem cancelImport_frame :
  forall s : LedgerState,
    let s' := cancelImport s in
    isImporting s' = false /\ isImportingRef s' = false /\
    getIsImporting s' = false /\
    statusCodes s' = [] /\ statusCodesRef s' = [] /\
    isPaired s' = isPaired s /\ isPairedRef s' = isPairedRef s /\
    transportError s' = transportError s /\
    ledgerDeviceInfo s' = ledgerDeviceInfo s /\
    transportResponse s' = transportResponse s /\
    cancelImport s' = s' /\
    (forall shown a c, cancelImport (handleNewStatusCode shown a c s) = s') /\
    (forall v, cancelImport (setIsImporting v s) = s').
Proof. intros s. repeat split. Qed.

(** The slots the task loop never writes. *)
Lemma loop_keeps_sync_slots (P : Provider) (tasks : list LedgerTask)
    (options : Json) (w : World) :
  let s' := state (snd (executeLedgerLoop P tasks options w)) in
  isPaired s' = isPaired (state w) /\
  isPairedRef s' = isPairedRef (state w) /\
  isImporting s' = isImporting (state w) /\
  isImportingRef s' = isImportingRef (state w) /\
  statusCodes s' = statusCodes (state w) /\
  statusCodesRef s' = statusCodesRef (state w).
Proof. intros s'. subst s'. run_cases; repeat apply conj; reflexivity. Qed.

Lemma loop_error_slot (P : Provider) (tasks : list LedgerTask)
    (options : Json) (w : World) :
  let s' := state (snd (executeLedgerLoop P tasks options w)) in
  transportError s' = transportError (state w) \/
  transportError s' = Some DeviceNotConnected \/
  transportError s' = Some AppNotOpen.
Proof. intros s'. subst s'. run_cases; auto. Qed.

Lemma checkPaired_state (P : Provider) (w : World) :
  state (snd (checkPaired P w)) = state w.
Proof. split_run; reflexivity. Qed.

(** X4: the task loop never writes the pairing status, the importing flag
    or the status codes (nor their mirrors); it writes DeviceInfo only when
    [get_device_info] is requested and TransportResponse only when
    [get_address] is. *)
Theorem executeLedgerLoop_frame :
  forall (P : Provider) (tasks : list LedgerTask) (options : Json) (w : World),
    let s' := state (snd (executeLedgerLoop P tasks options w)) in
    isPaired s' = isPaired (state w) /\
    isPairedRef s' = isPairedRef (state w) /\
    isImporting s' = isImporting (state w) /\
    isImportingRef s' = isImportingRef (state w) /\
    statusCodes s' = statusCodes (state w) /\
    statusCodesRef s' = statusCodesRef (state w) /\
    (includes tasks "get_device_info" = false ->
     ledgerDeviceInfo s' = ledgerDeviceInfo (state w)) /\
    (includes tasks "get_address" = false ->
     transportResponse s' = transportResponse (state w)).
Proof.
  intros P tasks options w s'. subst s'.
  run_cases; repeat apply conj; try reflexivity; intros H; discriminate H.
Qed.

Lemma executeLedgerLoop_frame_witness :
  ledgerDeviceInfo
    (state (snd (executeLedgerLoop workingProvider ["get_address"]
                   (accountOptions (safe 0)) initialWorld))) = JNull /\
  transportResponse
    (state (snd (executeLedgerLoop workingProvider ["get_device_info"]
                   JUndefined initialWorld))) = JNull.
Proof.
  split.
  - apply (executeLedgerLoop_frame workingProvider ["get_address"]
             (accountOptions (safe 0)) initialWorld).
    reflexivity.
  - apply (executeLedgerLoop_frame workingProvider ["get_device_info"]
             JUndefined initialWorld).
    reflexivity.
Defined.

(** X5: a call of the task loop writes TransportError at most once; without
    that write the slot keeps its value (a success does not clear an
    earlier error), with it the slot holds one of the two failure records. *)
Theorem transportError_written_on_failure_only :
  forall (P : Provider) (tasks : list LedgerTask) (options : Json) (w : World),
    let r := executeLedgerLoop P tasks options w in
    let evs := eventsOf (executeLedgerLoop P tasks options) w in
    length (filter isSetTransportError evs) <= 1 /\
    (existsb isSetTransportError evs = false ->
     transportError (state (snd r)) = transportError (state w)) /\
    (existsb isSetTransportError evs = true ->
     transportError (state (snd r)) = Some DeviceNotConnected \/
     transportError (state (snd r)) = Some AppNotOpen) /\
    (transportError (state w) <> None -> transportError (state (snd r)) <> None).
Proof.
  intros P tasks options w r evs. subst r evs.
  run_cases; events; cbn [filter existsb isSetTransportError orb length];
    repeat apply conj; try lia; try (intros H; discriminate H);
    try (intros _; reflexivity); try (intros _; left; reflexivity);
    try (intros _; right; reflexivity); try (intros H; exact H);
    intros _; discriminate.
Qed.

Lemma transportError_written_on_failure_only_witness :
  transportError
    (state (snd (executeLedgerLoop workingProvider ["get_address"]
                   (accountOptions (safe 0)) initialWorld))) =
  transportError (state initialWorld).
Proof.
  destruct (transportError_written_on_failure_only workingProvider
              ["get_address"] (accountOptions (safe 0)) initialWorld) as (_ & H & _).
  apply H. reflexivity.
Defined.

Section Sequences.

Variable w0 : World.

Lemma worldline_snoc ops o :
  worldline (ops ++ [o]) w0 = stepOp w0 (worldline ops w0) o.
Proof. unfold worldline. now rewrite fold_left_app. Qed.

Lemma current_kept (I : World -> Prop) (history : list World) :
  history <> [] -> Forall I history -> I (currentWorld w0 history).
Proof.
  intros Hne H. destruct history as [|w history]; [congruence|].
  now inversion H.
Qed.

(** What the first world satisfies and every call keeps, every world of a
    sequence of calls satisfies. *)
Lemma worldline_invariant (I : World -> Prop) :
  I w0 ->
  (forall history o,
      history <> [] -> Forall I history -> I (runOp w0 history o)) ->
  forall ops, worldline ops w0 <> [] /\ Forall I (worldline ops w0).
Proof.
  intros Hw Hstep ops. induction ops as [|o ops [Hne IH]] using rev_ind.
  - split; [discriminate|]. now constructor.
  - rewrite worldline_snoc. unfold stepOp. split; [discriminate|].
    constructor; [now apply Hstep|exact IH].
Qed.

Lemma runOps_invariant (I : World -> Prop) :
  I w0 ->
  (forall history o,
      history <> [] -> Forall I history -> I (runOp w0 history o)) ->
  forall ops, I (runOps ops w0).
Proof.
  intros Hw Hstep ops.
  destruct (worldline_invariant I Hw Hstep ops) as [Hne H].
  unfold runOps. now apply current_kept.
Qed.

Lemma runOp_lockstep history o :
  history <> [] ->
  Forall (fun w => inLockstep (state w)) history ->
  inLockstep (state (runOp w0 history o)).
Proof.
  intros Hne Hall.
  pose proof (current_kept _ history Hne Hall) as H. cbv beta in H.
  unfold inLockstep in *. destruct H as (Hp & Hi & Hs).
  destruct o as [p|v| | |n a c|P|P tasks options];
    cbn [runOp onState state].
  1-5: repeat split; assumption.
  - rewrite checkPaired_state. repeat split; assumption.
  - destruct (loop_keeps_sync_slots P tasks options (currentWorld w0 history))
      as (E1 & E2 & E3 & E4 & E5 & E6).
    rewrite E1, E2, E3, E4, E5, E6. repeat split; assumption.
Qed.

Lemma runOp_bound history o :
  history <> [] ->
  Forall (fun w => length (statusCodes (state w)) <= 50) history ->
  length (statusCodes (state (runOp w0 history o))) <= 50.
Proof.
  intros Hne Hall.
  pose proof (current_kept _ history Hne Hall) as H. cbv beta in H.
  destruct o as [p|v| | |n a c|P|P tasks options];
    cbn [runOp onState state].
  1-2: exact H.
  1-2: simpl; lia.
  - apply handleNewStatusCode_bound.
    rewrite Forall_forall in Hall. apply Hall.
    unfold currentWorld. now apply nth_hd_In.
  - now rewrite checkPaired_state.
  - destruct (loop_keeps_sync_slots P tasks options (currentWorld w0 history))
      as (_ & _ & _ & _ & E5 & _).
    now rewrite E5.
Qed.

Lemma runOp_error_kept history o :
  history <> [] ->
  Forall (fun w => transportError (state w) <> None) history ->
  transportError (state (runOp w0 history o)) <> None.
Proof.
  intros Hne Hall.
  pose proof (current_kept _ history Hne Hall) as H. cbv beta in H.
  destruct o as [p|v| | |n a c|P|P tasks options];
    cbn [runOp onState state].
  1-5: exact H.
  - now rewrite checkPaired_state.
  - destruct (loop_error_slot P tasks options (currentWorld w0 history))
      as [E|[E|E]]; rewrite E; [exact H|discriminate|discriminate].
Qed.

Lemma runOp_error_kinds history o :
  history <> [] ->
  Forall (fun w => transportError (state w) = None \/
                   transportError (state w) = Some DeviceNotConnected \/
                   transportError (state w) = Some AppNotOpen) history ->
  (transportError (state (runOp w0 history o)) = None \/
   transportError (state (runOp w0 history o)) = Some DeviceNotConnected \/
   transportError (state (runOp w0 history o)) = Some AppNotOpen).
Proof.
  intros Hne Hall.
  pose proof (current_kept _ history Hne Hall) as H. cbv beta in H.
  destruct o as [p|v| | |n a c|P|P tasks options];
    cbn [runOp onState state].
  1-5: exact H.
  - now rewrite checkPaired_state.
  - destruct (loop_error_slot P tasks options (currentWorld w0 history))
      as [E|[E|E]]; rewrite E; auto.
Qed.

End Sequences.

(** X6: after any sequence of calls of the operations, against any
    providers and with status code calls made through any earlier render,
    each mirror holds what its state slot holds, so [getIsImporting]
    answers the importing flag. *)
Theorem mirrors_in_lockstep :
  forall ops : list Op,
    let s := state (runOps ops initialWorld) in
    isPairedRef s = isPaired s /\
    isImportingRef s = isImporting s /\
    statusCodesRef s = statusCodes s /\
    getIsImporting s = isImporting s.
Proof.
  intros ops s.
  assert (H : inLockstep s).
  { apply (runOps_invariant initialWorld (fun w => inLockstep (state w))).
    - repeat split.
    - apply runOp_lockstep. }
  destruct H as (Hp & Hi & Hs). repeat split; assumption.
Qed.

(** X7: after any sequence of calls of the operations, resets, cancels and
    device tasks included, and with status code calls made through any
    earlier render, at most 50 status codes are held. *)
Theorem statusCodes_bounded_always :
  forall ops : list Op,
    length (statusCodes (state (runOps ops initialWorld)))
      <= TOTAL_ALLOWED_STATUS_CODES.
Proof.
  intros ops.
  apply (runOps_invariant initialWorld
           (fun w => length (statusCodes (state w)) <= 50)).
  - simpl. lia.
  - apply runOp_bound.
Qed.

(** X8: no sequence of calls of the operations clears TransportError once
    it is set; from the initial state it is unset or one of the two failure
    records. *)
Theorem transportError_never_cleared :
  forall (ops : list Op) (w : World),
    (transportError (state w) <> None ->
     transportError (state (runOps ops w)) <> None) /\
    (transportError (state (runOps ops initialWorld)) = None \/
     transportError (state (runOps ops initialWorld)) = Some DeviceNotConnected \/
     transportError (state (runOps ops initialWorld)) = Some AppNotOpen).
Proof.
  intros ops w. split.
  - intros H.
    apply (runOps_invariant w (fun w' => transportError (state w') <> None));
      [exact H|apply runOp_error_kept].
  - apply (runOps_invariant initialWorld
             (fun w' => transportError (state w') = None \/
                        transportError (state w') = Some DeviceNotConnected \/
                        transportError (state w') = Some AppNotOpen)).
    + left. reflexivity.
    + apply runOp_error_kinds.
Qed.

(** A failed call, then a successful one: the error of the first is still
    there. *)
Lemma transportError_never_cleared_witness :
  transportError
    (state (runOps [OpExecuteLedgerLoop workingProvider ["get_address"]
                      (accountOptions (safe 0))]
              (runOps [OpExecuteLedgerLoop unpluggedProvider ["get_device_info"]
                         JUndefined]
                 initialWorld))) <> None.
Proof.
  apply (transportError_never_cleared
           [OpExecuteLedgerLoop workingProvider ["get_address"]
              (accountOptions (safe 0))]).
  vm_compute. discriminate.
Defined.

(** ** Derivation paths and account indexes *)

Section Paths.







End Paths.





(** X11: an error is taken for the "no device" signal exactly when it is
    an object whose [id] is the string 'NoDevice'; a thrown [null],
    [undefined], string or number is not. *)
Theorem noDevice_only_by_own_id :
  forall err : Json,
    isNoDevice err = true <->
    exists fields, err = JObj fields /\
                   lookup "id" fields = Some (JStr "NoDevice").
Proof.
  intros err. rewrite isNoDevice_id. unfold optGetProp, getProp. split.
  - destruct err as [| |b|z|s|l|fields]; try discriminate.
    destruct (lookup "id" fields) as [x|] eqn:E; [|discriminate].
    intros ->. now exists fields.
  - intros (fields & -> & E). now rewrite E.
Qed.

Lemma noDevice_only_by_own_id_witness :
  isNoDevice noDeviceError = true /\ isNoDevice (JStr "NoDevice") = false.
Proof.
  split; [|reflexivity].
  apply (noDevice_only_by_own_id noDeviceError).
  eexists. split; reflexivity.
Defined.

(** ** More on the task loop *)

Lemma includes_In (tasks : list string) (name : string) :
  includes tasks name = true <-> In name tasks.
Proof.
  unfold includes. rewrite existsb_exists. split.
  - intros (x & Hx & E). apply String.eqb_eq in E. now subst.
  - intros H. exists name. split; [exact H|apply String.eqb_refl].
Qed.

Lemma includes_ext (tasks tasks' : list string) (name : string) :
  (In name tasks <-> In name tasks') ->
  includes tasks name = includes tasks' name.
Proof.
  intros H. destruct (includes tasks' name) eqn:E.
  - apply includes_In, H, includes_In, E.
  - destruct (includes tasks name) eqn:E'; [|reflexivity].
    apply includes_In, H, includes_In in E'. congruence.
Qed.

(** The paths of a call whose two task tests are known. *)
Ltac run_known Hinfo Haddr :=
  unfold eventsOf; unfold_ops; rewrite ?Hinfo, ?Haddr; norm;
  repeat (split_step; norm).

(** X12: the task loop depends on its task array only through whether it
    holds 'get_device_info' and whether it holds 'get_address': order,
    repetitions and other task names change nothing. *)
Theorem tasks_by_membership :
  forall (P : Provider) (tasks tasks' : list LedgerTask) (options : Json)
         (w : World),
    (In "get_device_info" tasks <-> In "get_device_info" tasks') ->
    (In "get_address" tasks <-> In "get_address" tasks') ->
    executeLedgerLoop P tasks options w = executeLedgerLoop P tasks' options w.
Proof.
  intros P tasks tasks' options w Hinfo Haddr.
  unfold executeLedgerLoop.
  now rewrite (includes_ext _ _ _ Hinfo), (includes_ext _ _ _ Haddr).
Qed.

Lemma tasks_by_membership_witness :
  executeLedgerLoop workingProvider
    ["sign_tx"; "get_address"; "get_address"] (accountOptions (safe 0)) initialWorld =
  executeLedgerLoop workingProvider ["get_address"] (accountOptions (safe 0)) initialWorld.
Proof.
  apply (tasks_by_membership workingProvider
           ["sign_tx"; "get_address"; "get_address"] ["get_address"]).
  - split; intros H; cbn [In] in H; repeat destruct H as [H|H];
      try discriminate H; destruct H.
  - split; intros _; cbn [In]; auto.
Defined.

(** X13: with neither task requested (an empty array, say) the loop still
    opens one session: when [create()] and [close()] succeed nothing is
    written, when [create()] fails the error is recorded; DeviceInfo and
    the device's address are never touched. *)
Theorem no_task_still_opens_a_session :
  forall (P : Provider) (tasks : list LedgerTask) (options : Json) (w : World),
    includes tasks "get_device_info" = false ->
    includes tasks "get_address" = false ->
    let r := executeLedgerLoop P tasks options w in
    let evs := eventsOf (executeLedgerLoop P tasks options) w in
    (forall t,
        create P (trace w) = Returned t ->
        close P (trace w ++ [EvCreate (Returned t)]) t = Returned tt ->
        state (snd r) = state w /\
        evs = [EvCreate (Returned t); EvClose t (Returned tt)]) /\
    (forall err,
        create P (trace w) = Threw err ->
        state (snd r) = setTransportError (Some (classify err)) (state w) /\
        evs = [EvCreate (Threw err); EvSetTransportError (classify err)]) /\
    length (filter isCreate evs) = 1 /\
    filter isGetAddress evs = [].
Proof.
  intros P tasks options w Hinfo Haddr r evs. subst r evs. unfold classify.
  run_known Hinfo Haddr; events; repeat apply conj; try reflexivity;
    intros x Hx; try discriminate Hx; try injection Hx as <-;
    try (intros Hc; discriminate Hc);
    repeat match goal with
           | H : isNoDevice _ = _ |- _ => rewrite H
           end;
    repeat split; congruence.
Qed.

Lemma no_task_still_opens_a_session_witness :
  eventsOf (executeLedgerLoop workingProvider [] JUndefined) initialWorld =
  [EvCreate (Returned device0); EvClose device0 (Returned tt)].
Proof.
  destruct (no_task_still_opens_a_session workingProvider [] JUndefined
              initialWorld eq_refl eq_refl) as (H & _).
  apply (H device0); reflexivity.
Defined.


(** Branches a provider without failures cannot take. *)
Ltac no_failure Hcreate Hclose Hnew Hget :=
  match goal with
  | H : create _ ?h = Threw _ |- _ =>
      destruct (Hcreate h) as [? E]; rewrite E in H; discriminate H
  | H : close _ ?h ?t = Threw _ |- _ =>
      rewrite (Hclose h t) in H; discriminate H
  | H : newPolkadot _ ?h ?t = Threw _ |- _ =>
      rewrite (Hnew h t) in H; discriminate H
  | H : getAddress _ ?h ?t ?p ?c = Threw _ |- _ =>
      destruct (Hget h t p c) as [? E]; rewrite E in H; discriminate H
  end.

(** X14: with [get_device_info] requested, no address asked for and no
    call failing, the loop opens and closes two sessions in a row; DeviceInfo
    becomes the {id, productName} of the first handle, or keeps its value
    when that handle carries no device model; nothing else is written. *)
Theorem device_info_uses_two_sessions :
  forall (P : Provider) (tasks : list LedgerTask) (options : Json) (w : World),
    allCallsSucceed P ->
    includes tasks "get_device_info" = true ->
    includes tasks "get_address" = false ->
    let r := executeLedgerLoop P tasks options w in
    let evs := eventsOf (executeLedgerLoop P tasks options) w in
    exists t t',
      create P (trace w) = Returned t /\
      ledgerDeviceInfo (state (snd r)) =
        match deviceModel t with
        | Some dm => JObj [("id", JStr (id dm));
                           ("productName", JStr (productName dm))]
        | None => ledgerDeviceInfo (state w)
        end /\
      transportResponse (state (snd r)) = transportResponse (state w) /\
      transportError (state (snd r)) = transportError (state w) /\
      evs = EvCreate (Returned t)
            :: match deviceModel t with
               | Some dm => [EvSetLedgerDeviceInfo (deviceJson dm)]
               | None => []
               end
            ++ [EvClose t (Returned tt);
                EvCreate (Returned t'); EvClose t' (Returned tt)] /\
      openHandles evs = [].
Proof.
  intros P tasks options w (Hcreate & Hclose & Hnew & Hget) Hinfo Haddr r evs.
  subst r evs.
  run_known Hinfo Haddr; events; try no_failure Hcreate Hclose Hnew Hget.
  all: match goal with
       | H : create _ (trace _) = Returned ?t,
         H' : create _ (_ ++ _) = Returned ?t' |- _ => exists t, t'
       end.
  all: match goal with H : deviceModel _ = _ |- _ => rewrite H end.
  all: repeat apply conj; try reflexivity; try assumption.
  all: handles; reflexivity.
Qed.

Lemma device_info_uses_two_sessions_witness :
  exists t t',
    ledgerDeviceInfo
      (state (snd (executeLedgerLoop workingProvider ["get_device_info"]
                     JUndefined initialWorld))) = deviceJson nanoS /\
    filter isCreate
      (eventsOf (executeLedgerLoop workingProvider ["get_device_info"] JUndefined)
         initialWorld) = [EvCreate (Returned t); EvCreate (Returned t')].
Proof.
  destruct (device_info_uses_two_sessions workingProvider ["get_device_info"]
              JUndefined initialWorld workingProvider_succeeds eq_refl eq_refl)
    as (t & t' & Ht & Hinfo & _ & _ & Hevs & _).
  exists t, t'. injection Ht as <-. split.
  - exact Hinfo.
  - rewrite Hevs. reflexivity.
Defined.

(** X15: with [get_device_info] requested, any failure of the first
    phase ends the call, whatever the error: a failed [create()] is the only
    call made, and a failed [close()] also skips the address phase although
    the device was there and its DeviceInfo has been stored. *)
Theorem first_phase_failure_ends_call :
  forall (P : Provider) (tasks : list LedgerTask) (options : Json) (w : World),
    includes tasks "get_device_info" = true ->
    let r := executeLedgerLoop P tasks options w in
    let evs := eventsOf (executeLedgerLoop P tasks options) w in
    (forall err,
        create P (trace w) = Threw err ->
        state (snd r) = setTransportError (Some (classify err)) (state w) /\
        evs = [EvCreate (Threw err); EvSetTransportError (classify err)]) /\
    (forall t err,
        create P (trace w) = Returned t ->
        (forall h, close P h t = Threw err) ->
        transportError (state (snd r)) = Some (classify err) /\
        ledgerDeviceInfo (state (snd r)) =
          match deviceModel t with
          | Some dm => deviceJson dm
          | None => ledgerDeviceInfo (state w)
          end /\
        transportResponse (state (snd r)) = transportResponse (state w) /\
        filter isCreate evs = [EvCreate (Returned t)] /\
        filter isGetAddress evs = []).
Proof.
  intros P tasks options w Hinfo r evs. subst r evs. unfold classify. split.
  - intros err Hc. unfold eventsOf. unfold_ops. rewrite Hinfo. norm.
    rewrite Hc. norm. destruct (isNoDevice err); norm; events; split; reflexivity.
  - intros t err Hc Hclose. unfold eventsOf. unfold_ops. rewrite Hinfo. norm.
    rewrite Hc. norm.
    destruct (deviceModel t) as [dm|]; norm; rewrite Hclose; norm;
      destruct (isNoDevice err); norm; events; repeat split.
Qed.

Lemma first_phase_failure_ends_call_witness :
  filter isGetAddress
    (eventsOf (executeLedgerLoop stuckProvider ["get_device_info"; "get_address"]
                 (accountOptions (safe 0))) initialWorld) = [] /\
  ledgerDeviceInfo
    (state (snd (executeLedgerLoop stuckProvider ["get_device_info"; "get_address"]
                   (accountOptions (safe 0)) initialWorld))) = deviceJson nanoS.
Proof.
  destruct (first_phase_failure_ends_call stuckProvider
              ["get_device_info"; "get_address"] (accountOptions (safe 0)) initialWorld
              eq_refl) as (_ & H).
  destruct (H device0 statusError eq_refl (fun _ => eq_refl))
    as (_ & Hinfo & _ & _ & Hget).
  split; assumption.
Defined.

(** X16: a call of the task loop opens one or two sessions, closes no more
    than it opened and asks for an address at most once; it asks only when
    [get_address] is requested, never with on-device confirmation, and with
    the path built from the string of [options.accountIndex ?? 0]. *)
Theorem address_requests :
  forall (P : Provider) (tasks : list LedgerTask) (options : Json) (w : World),
    let evs := eventsOf (executeLedgerLoop P tasks options) w in
    1 <= length (filter isCreate evs) <= 2 /\
    length (filter isClose evs) <= length (filter isCreate evs) /\
    length (filter isGetAddress evs) <= 1 /\
    (forall t path confirm r,
        In (EvGetAddress t path confirm r) evs ->
        confirm = false /\
        includes tasks "get_address" = true /\
        exists v index,
          getProp options "accountIndex" = Returned v /\
          toString (nullish v (JNum (safe 0))) = Returned index /\
          path = ("44'/354'/" ++ index ++ "'/0/0")%string).
Proof.
  intros P tasks options w evs. subst evs.
  run_cases; events;
    cbn [filter isCreate isClose isGetAddress length];
    (split; [lia|split; [lia|split; [lia|]]]).
  all: intros t' path confirm r' H; in_cases H; try discriminate H.
  all: injection H; intros; subst.
  all: repeat split; do 2 eexists; repeat split; eassumption.
Qed.

Lemma address_requests_witness :
  exists index,
    toString (JNum (safe 7)) = Returned index /\
    "44'/354'/7'/0/0" = ("44'/354'/" ++ index ++ "'/0/0")%string.
Proof.
  destruct (address_requests workingProvider ["get_address"]
              (accountOptions (safe 7)) initialWorld) as (_ & _ & _ & H).
  destruct (H device0 "44'/354'/7'/0/0" false (Returned sampleAddress))
    as (_ & _ & v & index & Hv & Hindex & Hpath).
  - vm_compute. do 3 right. left. reflexivity.
  - injection Hv as <-. exists index. split; assumption.
Defined.

(** X17: for any task array holding 'get_address' and any options whose
    account index ([options.accountIndex ?? 0]) converts to a string,
    against a provider whose calls succeed and whose handles carry a device
    model, the final TransportResponse is the success record echoing the
    options as given, the address is asked with the path built from that
    string, the earlier TransportError is left as it was and every handle
    is closed. *)
Theorem get_address_echoes_options :
  forall (P : Provider) (tasks : list LedgerTask) (options v : Json)
         (index : string) (w : World),
    allCallsSucceed P -> identifiesDevice P ->
    includes tasks "get_address" = true ->
    getProp options "accountIndex" = Returned v ->
    toString (nullish v (JNum (safe 0))) = Returned index ->
    let r := executeLedgerLoop P tasks options w in
    let evs := eventsOf (executeLedgerLoop P tasks options) w in
    exists t dm address,
      deviceModel t = Some dm /\
      In (EvGetAddress t ("44'/354'/" ++ index ++ "'/0/0")%string false
            (Returned address)) evs /\
      transportResponse (state (snd r)) =
        JObj [("ack", JStr "success");
              ("options", options);
              ("statusCode", JStr "ReceivedAddress");
              ("device", JObj [("id", JStr (id dm));
                               ("productName", JStr (productName dm))]);
              ("body", JArr [address])] /\
      transportError (state (snd r)) = transportError (state w) /\
      openHandles evs = [].
Proof.
  intros P tasks options v index w (Hcreate & Hclose & Hnew & Hget) Hid Haddr
    Hv Hindex r evs.
  subst r evs. unfold eventsOf. unfold_ops. rewrite Haddr, Hv. norm.
  repeat (rewrite ?Hindex; norm; split_step; norm); events;
    try no_failure Hcreate Hclose Hnew Hget.
  all: try match goal with
           | Hc : create _ _ = Returned ?t, Hd : deviceModel ?t = None |- _ =>
               destruct (Hid _ _ Hc) as [? E]; rewrite E in Hd; discriminate Hd
           end.
  all: match goal with
       | H : getAddress _ _ ?t _ _ = Returned ?a,
         Hd : deviceModel ?t = Some ?dm |- _ => exists t, dm, a
       end.
  all: repeat apply conj; try reflexivity; try assumption;
    try (cbn [In]; auto 10); handles; reflexivity.
Qed.

Lemma get_address_echoes_options_witness :
  exists t dm address,
    deviceModel t = Some dm /\
    In (EvGetAddress t "44'/354'/5'/0/0" false (Returned address))
       (eventsOf (executeLedgerLoop workingProvider
                    ["get_device_info"; "get_address"]
                    (JObj [("accountIndex", JNum (safe 5)); ("note", JStr "x")]))
          initialWorld).
Proof.
  destruct (get_address_echoes_options workingProvider
              ["get_device_info"; "get_address"]
              (JObj [("accountIndex", JNum (safe 5)); ("note", JStr "x")])
              (JNum (safe 5)) "5"
              initialWorld workingProvider_succeeds workingProvider_identifies
              eq_refl eq_refl eq_refl)
    as (t & dm & address & Hdm & Hin & _).
  exists t, dm, address. split; assumption.
Defined.

(** X18: when [create()] resolves, [checkPaired] never closes the handle
    it opened. *)
Theorem checkPaired_leaves_handle_open :
  forall (P : Provider) (w : World) (t : Transport),
    create P (trace w) = Returned t ->
    openHandles (eventsOf (checkPaired P) w) = [t] /\
    filter isClose (eventsOf (checkPaired P) w) = [].
Proof.
  intros P w t Ht. unfold eventsOf. unfold_ops. norm. rewrite Ht. norm.
  events. split; reflexivity.
Qed.

Lemma checkPaired_leaves_handle_open_witness :
  openHandles (eventsOf (checkPaired workingProvider) initialWorld) = [device0].
Proof.
  apply (checkPaired_leaves_handle_open workingProvider initialWorld device0).
  reflexivity.
Defined.

(** X19: when the handle carries no device model, the address sub-routine
    raises before writing the notice and before asking the device: the
    failure is recorded as {failure, AppNotOpen}, TransportResponse keeps
    its value and the handle is left open. *)
Theorem missing_device_model_is_app_not_open :
  forall (P : Provider) (tasks : list LedgerTask) (options v : Json) (w : World)
         (t : Transport),
    includes tasks "get_device_info" = false ->
    includes tasks "get_address" = true ->
    getProp options "accountIndex" = Returned v ->
    create P (trace w) = Returned t ->
    deviceModel t = None ->
    (forall h, newPolkadot P h t = Returned tt) ->
    let r := executeLedgerLoop P tasks options w in
    let evs := eventsOf (executeLedgerLoop P tasks options) w in
    transportResponse (state (snd r)) = transportResponse (state w) /\
    transportError (state (snd r)) = Some AppNotOpen /\
    evs = [EvCreate (Returned t); EvNewPolkadot t (Returned tt);
           EvSetTransportError AppNotOpen] /\
    openHandles evs = [t].
Proof.
  intros P tasks options v w t Hinfo Haddr Hv Ht Hdm Hnew r evs. subst r evs.
  unfold eventsOf. unfold_ops. rewrite Hinfo, Haddr, Hv. norm.
  rewrite Ht. norm. rewrite Hnew. norm. rewrite Hdm. cbn. events.
  repeat split.
Qed.

Lemma missing_device_model_is_app_not_open_witness :
  transportError
    (state (snd (executeLedgerLoop anonymousProvider ["get_address"]
                   (accountOptions (safe 0)) initialWorld))) = Some AppNotOpen.
Proof.
  apply (missing_device_model_is_app_not_open anonymousProvider ["get_address"]
           (accountOptions (safe 0)) (JNum (safe 0)) initialWorld
           {| handle := 0; deviceModel := None |});
    reflexivity.
Defined.

(** X20: when the account index is an object with an own [toString]
    property, the template literal of the progress notice raises: nothing is
    written to TransportResponse, the device is not asked for an address,
    the failure is recorded as {failure, AppNotOpen} and the handle is left
    open. *)
Theorem unconvertible_index_is_app_not_open :
  forall (P : Provider) (tasks : list LedgerTask) (options : Json)
         (fields : list (string * Json)) (x : Json) (w : World)
         (t : Transport) (dm : DeviceModel),
    includes tasks "get_device_info" = false ->
    includes tasks "get_address" = true ->
    getProp options "accountIndex" = Returned (JObj fields) ->
    lookup "toString" fields = Some x ->
    create P (trace w) = Returned t ->
    deviceModel t = Some dm ->
    (forall h, newPolkadot P h t = Returned tt) ->
    let r := executeLedgerLoop P tasks options w in
    let evs := eventsOf (executeLedgerLoop P tasks options) w in
    transportResponse (state (snd r)) = transportResponse (state w) /\
    transportError (state (snd r)) = Some AppNotOpen /\
    evs = [EvCreate (Returned t); EvNewPolkadot t (Returned tt);
           EvSetTransportError AppNotOpen] /\
    openHandles evs = [t].
Proof.
  intros P tasks options fields x w t dm Hinfo Haddr Hv Hx Ht Hdm Hnew r evs.
  subst r evs.
  unfold eventsOf. unfold_ops. rewrite Hinfo, Haddr, Hv. norm.
  rewrite Ht. norm. rewrite Hnew. norm. rewrite Hdm. norm.
  cbn [nullish toString]. rewrite Hx. cbn. events.
  repeat split.
Qed.

Lemma unconvertible_index_is_app_not_open_witness :
  transportError
    (state (snd (executeLedgerLoop workingProvider ["get_address"]
                   (JObj [("accountIndex", JObj [("toString", JNum (safe 1))])])
                   initialWorld))) = Some AppNotOpen.
Proof.
  apply (unconvertible_index_is_app_not_open workingProvider ["get_address"]
           (JObj [("accountIndex", JObj [("toString", JNum (safe 1))])])
           [("toString", JNum (safe 1))] (JNum (safe 1)) initialWorld
           device0 nanoS);
    reflexivity.
Defined.
